(** * PyLaia: [laia.engine.feeders.tensor_feeder]

    A shallow embedding of [TensorFeeder] over a small model of the Python
    object store.  Tensors are mutable objects that live in the store and
    are passed around by reference; [requires_grad_] changes one in place,
    [to] hands back the very same object when torch finds it on the
    requested device already and a fresh copy otherwise. *)

From stdpp Require Import gmap strings list fin_maps.

Local Open Scope string_scope.
Local Open Scope list_scope.

(** ** What torch makes of a device *)

(** [TensorFeeder] is given a [device], a [str] or a [torch.device], and
    hands it to [Tensor.to] as it is.  What torch makes of it depends on
    torch and on the machine, and is taken as given here:
    - [resolve dev] is where a copy made by [x.to(dev)] lives, the
      [device] attribute of the copy; torch refuses a [dev] that names no
      device, or none of the machine, and [resolve dev] is [None] then;
    - [already_on p dev] tells whether torch hands [x] itself back for
      [x.to(dev)] when [x.device] is [p];
    - [is_cpu p] is [p.type == 'cpu'].
    Torch hands a tensor back as it is only when it is where a copy would
    have gone.  A copy for which the device has no room left is outside
    this development. *)
Class Torch := {
  device : Type;
  place : Type;
  resolve : device → option place;
  already_on : place → device → bool;
  is_cpu : place → bool;
  already_on_resolve p dev : already_on p dev = true → resolve dev = Some p;
}.

(** ** Gradient tracking *)

(** Where a tensor stands with autograd: of a dtype that cannot require
    gradients (integers, booleans), a leaf that requires them or not, or
    the result of an operation on a tensor that requires them. *)
Inductive autograd :=
  | Plain
  | Leaf (requires_grad : bool)
  | Computed.

Definition requires_grad_of (g : autograd) : bool :=
  match g with
  | Plain => false
  | Leaf b => b
  | Computed => true
  end.

(** Why torch refuses a call. *)
Inductive refusal :=
  | BadDevice
  | NotLeaf
  | NotDifferentiable
  | BatchSizesOffCpu.

(** [requires_grad_(flag)]: torch does not turn the flag off on a tensor
    that is no leaf, nor on on a tensor of a dtype that cannot require
    gradients; turning it on on a tensor that is no leaf changes nothing. *)
Definition flag_set (g : autograd) (flag : bool) : refusal + autograd :=
  match g, flag with
  | Computed, false => inl NotLeaf
  | Plain, true => inl NotDifferentiable
  | Leaf _, _ => inr (Leaf flag)
  | Plain, false => inr Plain
  | Computed, true => inr Computed
  end.

Definition accepts (g : autograd) (flag : bool) : bool :=
  match flag_set g flag with
  | inr _ => true
  | inl _ => false
  end.

(** The standing of a copy: it requires gradients when the original does
    and torch is recording them, and is no leaf then. *)
Definition copied (enabled : bool) (g : autograd) : autograd :=
  match g with
  | Plain => Plain
  | Leaf false => Leaf false
  | Leaf true | Computed => if enabled then Computed else Leaf false
  end.

(** ** Exceptions and results *)

Abbreviation loc := positive.

(** [LibraryError] is whatever torch raises when it refuses a call: its
    class and its message are torch's.  [NoSuchObject] is no Python
    exception: Python has no dangling reference, it only makes the model
    total. *)
Inductive exn :=
  | TypeError (msg : string)
  | ValueError (msg : string)
  | AttributeError (attr : string)
  | LibraryError (why : refusal)
  | NoSuchObject (l : loc).

Inductive result (A : Type) :=
  | Ok (a : A)
  | Raise (e : exn).
Arguments Ok {A} a.
Arguments Raise {A} e.

(** The two composite classes. *)
Inductive variant := Padded | Packed.

(** ** The object store *)

Section store.
Context `{Torch}.

(** What this development keeps of a [torch.Tensor]: its numbers, where it
    lives and how it stands with autograd. *)
Record tensor := Tensor {
  payload : list Z;
  t_place : place;
  t_autograd : autograd;
}.

Definition t_requires_grad (t : tensor) : bool := requires_grad_of (t_autograd t).

(** Objects by runtime class, as [isinstance] tells them apart.  The two
    wrappers hold references to their parts.  [OOther] is any object of
    another class and carries [repr(type(x))]. *)
Inductive obj :=
  | OTensor (t : tensor)
  | OPaddedTensor (data sizes : loc)
  | OPackedSequence (data batch_sizes : loc)
  | OOther (type_repr : string).

(** The calls a run makes, in the order it makes them. *)
Inductive event :=
  | EvTo (x : loc) (dev : device)
  | EvRequiresGrad_ (x : loc) (flag : bool)
  | EvNew (w : loc)
  | EvUpstream (x : loc).

(** The objects, the calls made so far, and whether torch is recording
    gradients ([torch.is_grad_enabled()]). *)
Record state := State {
  heap : gmap loc obj;
  trace : list event;
  grad_enabled : bool;
}.

(** ** Computations: state passing, with exceptions that keep the state *)

Definition M (A : Type) : Type := state → result A * state.

#[global] Instance M_ret : MRet M := λ A a s, (Ok a, s).

#[global] Instance M_bind : MBind M := λ A B k m s,
  match m s with
  | (Ok a, s') => k a s'
  | (Raise e, s') => (Raise e, s')
  end.

Definition raise {A} (e : exn) : M A := λ s, (Raise e, s).

Definition emit (e : event) : M unit :=
  λ s, (Ok tt, State (heap s) (trace s ++ [e]) (grad_enabled s)).

(** A new object goes to a location that holds nothing yet. *)
Definition alloc (o : obj) : M loc :=
  λ s, let l := fresh (dom (heap s)) in
       (Ok l, State (<[l := o]> (heap s)) (trace s) (grad_enabled s)).

Definition tensor_at (h : gmap loc obj) (l : loc) : option tensor :=
  match h !! l with
  | Some (OTensor t) => Some t
  | _ => None
  end.

(** The object a reference leads to. *)
Definition deref (x : loc) : M obj :=
  λ s, match heap s !! x with
       | Some o => (Ok o, s)
       | None => (Raise (NoSuchObject x), s)
       end.

(** The tensor behind [x], for a use of its attribute [attr]. *)
Definition tensor_method (x : loc) (attr : string) : M tensor :=
  λ s, match tensor_at (heap s) x with
       | Some t => (Ok t, s)
       | None => (Raise (AttributeError attr), s)
       end.

Definition store (x : loc) (o : obj) : M unit :=
  λ s, (Ok tt, State (<[x := o]> (heap s)) (trace s) (grad_enabled s)).

Definition is_grad_enabled : M bool := λ s, (Ok (grad_enabled s), s).

(** ** The library calls [_feed] makes *)

(** The copy of [t] that [to] makes at [p]. *)
Definition copy_of (enabled : bool) (p : place) (t : tensor) : tensor :=
  Tensor (payload t) p (copied enabled (t_autograd t)).

(** [x.to(dev)]: refused when torch makes nothing of [dev]; [x] itself when
    torch finds it on [dev] already; else a copy where [dev] resolves to,
    with the payload of [x]. *)
Definition to (x : loc) (dev : device) : M loc :=
  _ ← emit (EvTo x dev);
  t ← tensor_method x "to";
  match resolve dev with
  | None => raise (LibraryError BadDevice)
  | Some p =>
      if already_on (t_place t) dev then mret x
      else enabled ← is_grad_enabled;
           alloc (OTensor (copy_of enabled p t))
  end.

(** [x.requires_grad_(flag)]: sets the flag of [x] in place and returns
    [x], unless torch refuses. *)
Definition requires_grad_ (x : loc) (flag : bool) : M loc :=
  _ ← emit (EvRequiresGrad_ x flag);
  t ← tensor_method x "requires_grad_";
  match flag_set (t_autograd t) flag with
  | inl why => raise (LibraryError why)
  | inr g =>
      _ ← store x (OTensor (Tensor (payload t) (t_place t) g));
      mret x
  end.

(** [b(arg)] for the value [b] of the attribute [x.requires_grad], which is
    a [bool]: Python refuses the call. *)
Definition call_bool (b : bool) (arg : bool) : M loc :=
  raise (TypeError "'bool' object is not callable").

(** Modelled from the spec: the class [PaddedTensor] of [laia.data], which
    is not part of the sources at hand; a composite value pairing a data
    payload and a size descriptor, built anew by each constructor call. *)
Definition PaddedTensor (data sizes : loc) : M loc :=
  w ← alloc (OPaddedTensor data sizes);
  _ ← emit (EvNew w);
  mret w.

(** [torch.nn.utils.rnn.PackedSequence(data, batch_sizes)]: the constructor
    raises a [ValueError] when [batch_sizes.device.type] is not ['cpu']. *)
Definition PackedSequence (data batch_sizes : loc) : M loc :=
  t ← tensor_method batch_sizes "device";
  if is_cpu (t_place t) then
    w ← alloc (OPackedSequence data batch_sizes);
    _ ← emit (EvNew w);
    mret w
  else raise (LibraryError BatchSizesOffCpu).

(** ** The feeder *)

(** A parent feeder is any callable: it gets the input and the store and
    hands back an object or raises. *)
Definition callable : Type := loc → gmap loc obj → result loc * gmap loc obj.

Definition apply_callable (u : callable) (x : loc) : M loc :=
  λ s, let '(r, h) := u x (heap s) in (r, State h (trace s) (grad_enabled s)).

(** Calling the parent, noted in the trace. *)
Definition call_upstream (u : callable) (x : loc) : M loc :=
  _ ← emit (EvUpstream x);
  apply_callable u x.

End store.

Module TensorFeeder.

Record t `{Torch} := Build {
  _parent_feeder : option callable;
  _device : device;
  _requires_grad : bool;
}.

(** [TensorFeeder(device, requires_grad=False, parent_feeder=None)] *)
Definition __init__ `{Torch} (device : device) (requires_grad : bool)
    (parent_feeder : option callable) : t :=
  Build _ parent_feeder device requires_grad.

Definition _feed `{Torch} (self : t) (x : loc) : M loc :=
  o ← deref x;
  match o with
  | OTensor tx =>
      r ← call_bool (t_requires_grad tx) (_requires_grad self);
      to r (_device self)
  | OPaddedTensor data sizes =>
      xs ← to sizes (_device self);
      x ← (r ← requires_grad_ data (_requires_grad self);
           to r (_device self));
      PaddedTensor x xs
  | OPackedSequence data batch_sizes =>
      xs ← to batch_sizes (_device self);
      x ← (r ← requires_grad_ data (_requires_grad self);
           to r (_device self));
      PackedSequence x xs
  | OOther type_repr =>
      raise (ValueError ("Type " +:+ type_repr +:+ " is not supported"))
  end.

(** Modelled from the spec: [Feeder.feed] of [laia.engine.feeders.feeder],
    the base class, which is not part of the sources at hand; if an
    upstream transformation is configured it is invoked first and its
    output becomes this call's effective input. *)
Definition feed `{Torch} (self : t) (x : loc) : M loc :=
  match _parent_feeder self with
  | Some u => x ← call_upstream u x; _feed self x
  | None => _feed self x
  end.

End TensorFeeder.

(** For backward compatibility *)
Module VariableFeeder := TensorFeeder.

(** ** What the two wrapper branches of [_feed] do to the store *)

Section derived.
Context `{Torch}.

(** Where [x.to(dev)] leaves the tensor [t] it was called on, when torch
    makes something of [dev]. *)
Definition moved (h : gmap loc obj) (x : loc) (t : tensor) (dev : device) : loc :=
  if already_on (t_place t) dev then x else fresh (dom h).

Definition moved_heap (h : gmap loc obj) (t : tensor) (dev : device)
    (p : place) (enabled : bool) : gmap loc obj :=
  if already_on (t_place t) dev then h
  else <[fresh (dom h) := OTensor (copy_of enabled p t)]> h.

(** The tensor [x.to(dev)] hands back for the tensor [t]. *)
Definition relocated (enabled : bool) (p : place) (dev : device) (t : tensor)
    : tensor :=
  if already_on (t_place t) dev then t else copy_of enabled p t.

(** The descriptor handed back: when it is the data tensor itself and is
    not copied, it has been through [requires_grad_]. *)
Definition descriptor_out (enabled : bool) (p : place) (dev : device)
    (shared : bool) (flagged tz : tensor) : tensor :=
  if already_on (t_place tz) dev then (if shared then flagged else tz)
  else copy_of enabled p tz.

(** [xs = sizes.to(dev)], then [data.requires_grad_(flag)], then [.to(dev)]
    on the result: the store after each step and the two objects handed to
    the constructor, when [dev] resolves to [p] and the flag is accepted
    and leaves the data with the standing [g]. *)
Section relocated.
Variables (h : gmap loc obj) (d z : loc) (td tz : tensor).
Variables (dev : device) (p : place) (enabled : bool) (g : autograd).

Definition flagged : tensor := Tensor (payload td) (t_place td) g.
Definition sizes' : loc := moved h z tz dev.
Definition heap1 : gmap loc obj := moved_heap h tz dev p enabled.
Definition heap2 : gmap loc obj := <[d := OTensor flagged]> heap1.
Definition data' : loc := moved heap2 d flagged dev.
Definition heap3 : gmap loc obj := moved_heap heap2 flagged dev p enabled.
Definition wrapper : loc := fresh (dom heap3).
End relocated.

(** An object of either composite class. *)
Definition wrap (v : variant) (data sizes : loc) : obj :=
  match v with
  | Padded => OPaddedTensor data sizes
  | Packed => OPackedSequence data sizes
  end.

(** What torch's [PackedSequence] wants of the place of the batch sizes;
    a [PaddedTensor] wants nothing. *)
Definition constructible (v : variant) (p : place) : bool :=
  match v with
  | Padded => true
  | Packed => is_cpu p
  end.

(** ** Reading a result *)

Definition class_of (h : gmap loc obj) (w : loc) : option variant :=
  match h !! w with
  | Some (OPaddedTensor _ _) => Some Padded
  | Some (OPackedSequence _ _) => Some Packed
  | _ => None
  end.

(** The references a wrapper holds. *)
Definition parts_of (h : gmap loc obj) (w : loc) : option (loc * loc) :=
  match h !! w with
  | Some (OPaddedTensor d z) | Some (OPackedSequence d z) => Some (d, z)
  | _ => None
  end.

(** The [data] part of a wrapper. *)
Definition data_of (h : gmap loc obj) (w : loc) : option tensor :=
  match h !! w with
  | Some (OPaddedTensor d _) | Some (OPackedSequence d _) => tensor_at h d
  | _ => None
  end.

(** The [sizes] part of a [PaddedTensor], the [batch_sizes] part of a
    [PackedSequence]. *)
Definition sizes_of (h : gmap loc obj) (w : loc) : option tensor :=
  match h !! w with
  | Some (OPaddedTensor _ z) | Some (OPackedSequence _ z) => tensor_at h z
  | _ => None
  end.



(** The reading of the specification under which a call leaves every
    object that existed before it as it was. *)
Definition store_unchanged (self : TensorFeeder.t) (x : loc) (s : state) : Prop :=
  ∀ l, is_Some (heap s !! l) →
       heap (TensorFeeder._feed self x s).2 !! l = heap s !! l.

(** The reading of the specification under which every wrapper comes back
    as a wrapper of its class. *)
Definition returns_wrapper (v : variant) (self : TensorFeeder.t)
    (x : loc) (s : state) : Prop :=
  ∃ w s', TensorFeeder._feed self x s = (Ok w, s') ∧ class_of (heap s') w = Some v.

(** ** Traces *)

(** The arguments of the calls to a parent feeder, in order. *)
Definition upstream_events (tr : list event) : list loc :=
  omap (λ e, match e with EvUpstream x => Some x | _ => None end) tr.

(** A computation that never calls a parent feeder and only adds to the
    trace. *)
Definition quiet {A} (m : M A) : Prop :=
  ∀ s, ∃ evs, trace (m s).2 = trace s ++ evs ∧ upstream_events evs = [].

(** ** Values, up to the identity of objects *)











(** ** What a call may do to an object that exists *)

(** [o'] is [o], or the tensor [o] with another standing. *)
Definition kept (o o' : obj) : Prop :=
  match o, o' with
  | OTensor t, OTensor t' => payload t = payload t' ∧ t_place t = t_place t'
  | _, _ => o = o'
  end.

(** A computation after which every object that existed is still there,
    the same but for the standing of a tensor. *)
Definition keeps_objects {A} (m : M A) : Prop :=
  ∀ s l o, heap s !! l = Some o → ∃ o', heap (m s).2 !! l = Some o' ∧ kept o o'.

(** A computation that changes no object that exists. *)
Definition only_adds {A} (m : M A) : Prop :=
  ∀ s l o, heap s !! l = Some o → heap (m s).2 !! l = Some o.

(** The data tensor of the input after a call: through [requires_grad_]
    when torch makes something of the device and accepts the flag, as it
    was otherwise. *)
Definition data_after (self : TensorFeeder.t) (td : tensor) : tensor :=
  match resolve (TensorFeeder._device self),
        flag_set (t_autograd td) (TensorFeeder._requires_grad self) with
  | Some _, inr g => flagged td g
  | _, _ => td
  end.

(** How many of the two parts of a wrapper [to] has to copy. *)
Definition copies (td tz : tensor) (dev : device) : nat :=
  (if already_on (t_place tz) dev then 0 else 1)
  + (if already_on (t_place td) dev then 0 else 1).

End derived.

(** ** A machine to run on *)

(** Four device arguments, ['cpu'], ['cpu:0'], ['cuda:0'] and ['gpu:0'], on
    a machine with one CUDA device.  A tensor on the CPU reads ['cpu'], so
    torch copies it on every [to('cpu:0')]; ['gpu:0'] names no device. *)
Inductive sample_device := cpu | cpu0 | cuda0 | gpu0.

Inductive sample_place := at_cpu | at_cuda0.

#[refine] Instance sample : Torch := {|
  device := sample_device;
  place := sample_place;
  resolve dev :=
    match dev with
    | cpu | cpu0 => Some at_cpu
    | cuda0 => Some at_cuda0
    | gpu0 => None
    end;
  already_on p dev :=
    match p, dev with
    | at_cpu, cpu | at_cuda0, cuda0 => true
    | _, _ => false
    end;
  is_cpu p := match p with at_cpu => true | at_cuda0 => false end;
|}.
Proof. by intros [] []. Defined.

(** ** Sample stores *)

Definition float_data : tensor := Tensor [1; 2; 3]%Z at_cpu (Leaf false).
Definition int_data : tensor := Tensor [1; 2; 3]%Z at_cpu Plain.
Definition int_sizes : tensor := Tensor [2; 3]%Z at_cpu Plain.
Definition tracked_data : tensor := Tensor [1; 2; 3]%Z at_cpu (Leaf true).

(** A [PaddedTensor] with data and sizes on the CPU. *)
Definition padded_store : state :=
  State (<[3%positive := OPaddedTensor 1 2]>
          (<[2%positive := OTensor int_sizes]>
            (<[1%positive := OTensor float_data]> ∅))) [] true.

(** A [PackedSequence] with data and batch sizes on the CPU. *)
Definition packed_store : state :=
  State (<[3%positive := OPackedSequence 1 2]>
          (<[2%positive := OTensor int_sizes]>
            (<[1%positive := OTensor float_data]> ∅))) [] true.

(** A [PaddedTensor] the data of which are integers. *)
Definition int_padded_store : state :=
  State (<[3%positive := OPaddedTensor 1 2]>
          (<[2%positive := OTensor int_sizes]>
            (<[1%positive := OTensor int_data]> ∅))) [] true.



(** A plain tensor, and an object of another class. *)
Definition tensor_store : state :=
  State (<[2%positive := OOther "<class 'list'>"]>
          (<[1%positive := OTensor float_data]> ∅)) [] true.

(** A tensor that is where [on_cpu] wants it, with the flag it wants. *)
Definition settled_store : state :=
  State (<[1%positive := OTensor tracked_data]> ∅) [] true.

(** A [PaddedTensor] that is where [on_cpu] wants it, with the flag it
    wants on its data. *)
Definition settled_padded_store : state :=
  State (<[3%positive := OPaddedTensor 1 2]>
          (<[2%positive := OTensor int_sizes]>
            (<[1%positive := OTensor tracked_data]> ∅))) [] true.


Definition on_cpu : TensorFeeder.t := TensorFeeder.__init__ cpu true None.
Definition to_cpu0 : TensorFeeder.t := TensorFeeder.__init__ cpu0 true None.
Definition to_cuda0 : TensorFeeder.t := TensorFeeder.__init__ cuda0 true None.
Definition to_gpu0 : TensorFeeder.t := TensorFeeder.__init__ gpu0 true None.


(** ** Running the library calls *)

Ltac run := unfold mbind, M_bind, mret, M_ret; simpl.

Section runs.
Context `{Torch}.

Lemma fresh_loc_None (h : gmap loc obj) : h !! fresh (dom h) = None.
Proof. apply not_elem_of_dom, is_fresh. Qed.

Lemma fresh_loc_ne (h : gmap loc obj) (l : loc) :
  is_Some (h !! l) → l ≠ fresh (dom h).
Proof. intros [o Ho] ->. rewrite fresh_loc_None in Ho. discriminate. Qed.

Lemma fresh_loc_old (h h' : gmap loc obj) :
  (∀ l, is_Some (h !! l) → is_Some (h' !! l)) → h !! fresh (dom h') = None.
Proof.
  intros Hold. destruct (h !! fresh (dom h')) as [o|] eqn:E; [|done].
  destruct (Hold (fresh (dom h'))) as [o' Ho']; [eauto|].
  by rewrite fresh_loc_None in Ho'.
Qed.

Lemma tensor_at_Some h l t : tensor_at h l = Some t ↔ h !! l = Some (OTensor t).
Proof.
  unfold tensor_at. split.
  - destruct (h !! l) as [[]|]; intros; simplify_eq; done.
  - intros ->. done.
Qed.

Lemma flag_set_requires_grad g flag g' :
  flag_set g flag = inr g' → requires_grad_of g' = flag.
Proof. destruct g as [|b|], flag; simpl; intros; by simplify_eq. Qed.

Lemma flag_set_again g flag g' :
  flag_set g flag = inr g' → flag_set g' flag = inr g'.
Proof. destruct g as [|b|], flag; simpl; intros; by simplify_eq. Qed.

Lemma flag_set_copied g flag g' :
  flag_set g flag = inr g' → flag_set (copied true g') flag = inr (copied true g').
Proof. destruct g as [|b|], flag; simpl; intros; by simplify_eq. Qed.


Lemma accepts_flag_set g flag :
  accepts g flag = true → ∃ g', flag_set g flag = inr g'.
Proof. unfold accepts. destruct (flag_set g flag); [done|eauto]. Qed.

Lemma to_run x dev s t p :
  tensor_at (heap s) x = Some t →
  resolve dev = Some p →
  to x dev s = (Ok (moved (heap s) x t dev),
                State (moved_heap (heap s) t dev p (grad_enabled s))
                      (trace s ++ [EvTo x dev]) (grad_enabled s)).
Proof.
  intros Ht Hp.
  unfold to, emit, tensor_method, is_grad_enabled, alloc, moved, moved_heap. run.
  rewrite Ht, Hp. by destruct (already_on (t_place t) dev).
Qed.

Lemma to_run_bad x dev s t :
  tensor_at (heap s) x = Some t →
  resolve dev = None →
  to x dev s = (Raise (LibraryError BadDevice),
                State (heap s) (trace s ++ [EvTo x dev]) (grad_enabled s)).
Proof. intros Ht Hp. unfold to, emit, tensor_method, raise. run. by rewrite Ht, Hp. Qed.

Lemma requires_grad__run x flag s t g :
  tensor_at (heap s) x = Some t →
  flag_set (t_autograd t) flag = inr g →
  requires_grad_ x flag s =
    (Ok x, State (<[x := OTensor (Tensor (payload t) (t_place t) g)]> (heap s))
                 (trace s ++ [EvRequiresGrad_ x flag]) (grad_enabled s)).
Proof.
  intros Ht Hg. unfold requires_grad_, emit, tensor_method, store. run.
  by rewrite Ht, Hg.
Qed.

Lemma requires_grad__refused x flag s t why :
  tensor_at (heap s) x = Some t →
  flag_set (t_autograd t) flag = inl why →
  requires_grad_ x flag s =
    (Raise (LibraryError why),
     State (heap s) (trace s ++ [EvRequiresGrad_ x flag]) (grad_enabled s)).
Proof.
  intros Ht Hg. unfold requires_grad_, emit, tensor_method, raise. run.
  by rewrite Ht, Hg.
Qed.

(** The tensor that [moved] names, in the store [moved_heap] leaves. *)
Lemma moved_tensor h x t dev p enabled :
  tensor_at h x = Some t →
  tensor_at (moved_heap h t dev p enabled) (moved h x t dev)
    = Some (relocated enabled p dev t).
Proof.
  intros Ht. unfold moved, moved_heap, relocated.
  destruct (already_on (t_place t) dev); [done|].
  apply tensor_at_Some. by rewrite lookup_insert_eq.
Qed.

(** [to] changes no object that exists. *)
Lemma moved_heap_old h t dev p enabled l :
  is_Some (h !! l) → moved_heap h t dev p enabled !! l = h !! l.
Proof.
  intros Hl. unfold moved_heap. destruct (already_on (t_place t) dev); [done|].
  rewrite lookup_insert_ne; [done|]. apply not_eq_sym, fresh_loc_ne, Hl.
Qed.

(** What [to] hands back is where the device resolves to. *)
Lemma place_relocated enabled p dev t :
  resolve dev = Some p → t_place (relocated enabled p dev t) = p.
Proof.
  intros Hp. unfold relocated.
  destruct (already_on (t_place t) dev) eqn:E; [|done].
  apply already_on_resolve in E. congruence.
Qed.



Lemma place_descriptor_out enabled p dev shared fl tz :
  resolve dev = Some p →
  (shared = true → t_place fl = t_place tz) →
  t_place (descriptor_out enabled p dev shared fl tz) = p.
Proof.
  intros Hp Hsh. unfold descriptor_out.
  destruct (already_on (t_place tz) dev) eqn:E; [|done].
  apply already_on_resolve in E.
  destruct shared; [rewrite Hsh by done|]; congruence.
Qed.

End runs.

(** ** The store after the two wrapper branches *)
Section relocation.
Context `{Torch}.
Variables (h : gmap loc obj) (d z : loc) (td tz : tensor).
Variables (dev : device) (p : place) (enabled : bool) (g : autograd).

Local Abbreviation flagged := (flagged td g).
Local Abbreviation sizes' := (sizes' h z tz dev).
Local Abbreviation heap1 := (heap1 h tz dev p enabled).
Local Abbreviation heap2 := (heap2 h d td tz dev p enabled g).
Local Abbreviation data' := (data' h d td tz dev p enabled g).
Local Abbreviation heap3 := (heap3 h d td tz dev p enabled g).
Local Abbreviation wrapper := (wrapper h d td tz dev p enabled g).

Hypothesis Hd : tensor_at h d = Some td.
Hypothesis Hz : tensor_at h z = Some tz.

Lemma heap1_data : tensor_at heap1 d = Some td.
Proof.
  unfold tensor_at, heap1. rewrite moved_heap_old; [exact Hd|].
  apply tensor_at_Some in Hd. eauto.
Qed.

Lemma heap1_old l : is_Some (h !! l) → heap1 !! l = h !! l.
Proof. apply moved_heap_old. Qed.

Lemma heap2_flagged : tensor_at heap2 d = Some flagged.
Proof. apply tensor_at_Some. unfold heap2. by rewrite lookup_insert_eq. Qed.

Lemma heap2_old l : is_Some (h !! l) → is_Some (heap2 !! l).
Proof.
  intros Hl. unfold heap2. destruct (decide (d = l)) as [->|Hne].
  - rewrite lookup_insert_eq. eauto.
  - rewrite lookup_insert_ne by done. by rewrite heap1_old.
Qed.

Lemma sizes'_in_heap2 : is_Some (heap2 !! sizes').
Proof.
  assert (Hz' := Hz). apply tensor_at_Some in Hz'.
  assert (Hd' := Hd). apply tensor_at_Some in Hd'.
  unfold sizes', moved.
  destruct (already_on (t_place tz) dev) eqn:E; [apply heap2_old; eauto|].
  unfold heap2. rewrite lookup_insert_ne by (apply fresh_loc_ne; eauto).
  unfold heap1, moved_heap. rewrite E, lookup_insert_eq. eauto.
Qed.

(** The data handed to the constructor: the data of the input after
    [requires_grad_], or a copy of it. *)
Lemma data'_tensor : tensor_at heap3 data' = Some (relocated enabled p dev flagged).
Proof. apply moved_tensor, heap2_flagged. Qed.

(** The descriptor handed to the constructor: the descriptor of the input,
    or a copy of it made before [requires_grad_] ran. *)
Lemma sizes'_tensor :
  tensor_at heap3 sizes'
    = Some (descriptor_out enabled p dev (bool_decide (d = z)) flagged tz).
Proof.
  assert (Hz' := Hz). apply tensor_at_Some in Hz'.
  assert (Hd' := Hd). apply tensor_at_Some in Hd'.
  unfold tensor_at, heap3.
  rewrite moved_heap_old by apply sizes'_in_heap2.
  unfold heap2, heap1, sizes', moved, moved_heap,
    descriptor_out.
  destruct (already_on (t_place tz) dev) eqn:E.
  - destruct (decide (d = z)) as [->|Hne].
    + by rewrite lookup_insert_eq, bool_decide_eq_true_2.
    + rewrite lookup_insert_ne by done. rewrite Hz'.
      by rewrite bool_decide_eq_false_2.
  - rewrite lookup_insert_ne by (apply fresh_loc_ne; eauto).
    by rewrite lookup_insert_eq.
Qed.

(** In place: the data tensor of the input is the one [requires_grad_]
    left. *)
Lemma heap3_data : heap3 !! d = Some (OTensor flagged).
Proof.
  unfold heap3.
  rewrite moved_heap_old; unfold heap2; rewrite lookup_insert_eq; eauto.
Qed.

(** Every other object that existed is as it was. *)
Lemma heap3_old l : is_Some (h !! l) → l ≠ d → heap3 !! l = h !! l.
Proof.
  intros Hl Hne. unfold heap3.
  rewrite moved_heap_old by by apply heap2_old.
  unfold heap2. rewrite lookup_insert_ne by done. by apply heap1_old.
Qed.

Lemma heap3_old_Some l : is_Some (h !! l) → is_Some (heap3 !! l).
Proof.
  intros Hl. destruct (decide (l = d)) as [->|Hne].
  - rewrite heap3_data. eauto.
  - by rewrite heap3_old.
Qed.

Lemma wrapper_new : h !! wrapper = None.
Proof. apply fresh_loc_old, heap3_old_Some. Qed.

(** The two objects handed to the constructor are one object exactly when
    the two parts of the input were, and torch found them on [dev]. *)
Lemma data'_is_sizes' :
  data' = sizes' ↔ d = z ∧ already_on (t_place tz) dev = true.
Proof.
  assert (Hz' := Hz). apply tensor_at_Some in Hz'.
  assert (Hd' := Hd). apply tensor_at_Some in Hd'.
  pose proof sizes'_in_heap2 as Hin. revert Hin.
  unfold data', sizes', moved. simpl.
  destruct (already_on (t_place tz) dev) eqn:Ez.
  - intros _. destruct (already_on (t_place td) dev) eqn:Ed; [intuition|].
    split.
    + intros E. exfalso. symmetry in E. revert E.
      apply fresh_loc_ne, heap2_old. eauto.
    + intros [-> _]. congruence.
  - intros Hin. split; [|by intros [_ ?]]. intros E. exfalso.
    destruct (already_on (t_place td) dev) eqn:Ed.
    + revert E. apply fresh_loc_ne. eauto.
    + symmetry in E. revert E. by apply fresh_loc_ne.
Qed.

Hypothesis Hp : resolve dev = Some p.

(** The two [to] and the [requires_grad_] between them, then whatever
    follows with their results. *)
Lemma relocate_run {A} (k : loc → loc → M A) (flag : bool) (tr : list event) :
  flag_set (t_autograd td) flag = inr g →
  (xs ← to z dev;
   x ← (r ← requires_grad_ d flag; to r dev);
   k x xs) (State h tr enabled)
  = k data' sizes'
      (State heap3 (tr ++ [EvTo z dev; EvRequiresGrad_ d flag; EvTo d dev]) enabled).
Proof.
  intros Hg. unfold mbind, M_bind at 1.
  rewrite (to_run _ _ _ tz p) by done. simpl.
  unfold mbind, M_bind at 1. unfold mbind, M_bind at 1.
  rewrite (requires_grad__run _ _ _ td g) by (exact heap1_data || exact Hg). simpl.
  rewrite (to_run _ _ _ flagged p) by (exact heap2_flagged || exact Hp). simpl.
  by rewrite <- !app_assoc.
Qed.

(** The same, when torch refuses the flag. *)
Lemma relocate_refused {A} (k : loc → loc → M A) (flag : bool) (tr : list event) why :
  flag_set (t_autograd td) flag = inl why →
  (xs ← to z dev;
   x ← (r ← requires_grad_ d flag; to r dev);
   k x xs) (State h tr enabled)
  = (Raise (LibraryError why),
     State heap1 (tr ++ [EvTo z dev; EvRequiresGrad_ d flag]) enabled).
Proof.
  intros Hg. unfold mbind, M_bind at 1.
  rewrite (to_run _ _ _ tz p) by done. simpl.
  unfold mbind, M_bind at 1. unfold mbind, M_bind at 1.
  rewrite (requires_grad__refused _ _ _ td why) by (exact heap1_data || exact Hg).
  simpl. by rewrite <- !app_assoc.
Qed.

End relocation.

(** ** What [_feed] does on a wrapper

    [_feed] is the transformation proper: [feed] runs it on the input, or on
    what the parent feeder hands back for the input. *)

Lemma shared_place `{Torch} (d z : loc) h (td tz : tensor) g :
  tensor_at h d = Some td →
  tensor_at h z = Some tz →
  bool_decide (d = z) = true → t_place (flagged td g) = t_place tz.
Proof. intros Hd Hz E. apply bool_decide_eq_true_1 in E. subst. simpl. congruence. Qed.

(** Torch makes nothing of the device: the first [to] raises, and nothing
    has changed. *)
Lemma feed_wrapper_bad_device `{Torch} v self h tr enabled x d z tz :
  h !! x = Some (wrap v d z) →
  tensor_at h z = Some tz →
  resolve (TensorFeeder._device self) = None →
  TensorFeeder._feed self x (State h tr enabled)
    = (Raise (LibraryError BadDevice),
       State h (tr ++ [EvTo z (TensorFeeder._device self)]) enabled).
Proof.
  intros Hx Hz Hp. unfold TensorFeeder._feed. unfold mbind, M_bind at 1.
  unfold deref. simpl. rewrite Hx.
  destruct v; simpl; unfold mbind, M_bind at 1;
    by rewrite (to_run_bad _ _ _ tz) by done.
Qed.

(** Torch refuses the flag: [requires_grad_] raises, after the descriptor
    has been through [to]. *)
Lemma feed_wrapper_refused `{Torch} v self h tr enabled x d z td tz p why :
  h !! x = Some (wrap v d z) →
  tensor_at h d = Some td →
  tensor_at h z = Some tz →
  let dev := TensorFeeder._device self in
  let flag := TensorFeeder._requires_grad self in
  resolve dev = Some p →
  flag_set (t_autograd td) flag = inl why →
  TensorFeeder._feed self x (State h tr enabled)
    = (Raise (LibraryError why),
       State (heap1 h tz dev p enabled)
             (tr ++ [EvTo z dev; EvRequiresGrad_ d flag]) enabled).
Proof.
  intros Hx Hd Hz dev flag Hp Hg. unfold TensorFeeder._feed.
  unfold mbind, M_bind at 1. unfold deref. simpl. rewrite Hx.
  destruct v; simpl.
  - exact (relocate_refused h d z td tz dev p enabled Hd Hz Hp
             (λ x0 xs, PaddedTensor x0 xs) flag tr why Hg).
  - exact (relocate_refused h d z td tz dev p enabled Hd Hz Hp
             (λ x0 xs, PackedSequence x0 xs) flag tr why Hg).
Qed.

(** Torch does not build a [PackedSequence] with batch sizes off the CPU:
    the constructor raises, after both parts have been through [to] and the
    data through [requires_grad_]. *)
Lemma feed_packed_off_cpu `{Torch} self h tr enabled x d z td tz p g :
  h !! x = Some (OPackedSequence d z) →
  tensor_at h d = Some td →
  tensor_at h z = Some tz →
  let dev := TensorFeeder._device self in
  let flag := TensorFeeder._requires_grad self in
  resolve dev = Some p →
  flag_set (t_autograd td) flag = inr g →
  is_cpu p = false →
  TensorFeeder._feed self x (State h tr enabled)
    = (Raise (LibraryError BatchSizesOffCpu),
       State (heap3 h d td tz dev p enabled g)
             (tr ++ [EvTo z dev; EvRequiresGrad_ d flag; EvTo d dev]) enabled).
Proof.
  intros Hx Hd Hz dev flag Hp Hg Hcpu. unfold TensorFeeder._feed.
  unfold mbind, M_bind at 1. unfold deref. simpl. rewrite Hx. simpl.
  refine (eq_trans (relocate_run h d z td tz dev p enabled g Hd Hz Hp
                      (λ x0 xs, PackedSequence x0 xs) flag tr Hg) _).
  unfold PackedSequence, tensor_method, raise. run.
  rewrite (sizes'_tensor h d z td tz dev p enabled g Hd Hz). simpl.
  rewrite place_descriptor_out by (exact Hp || by apply (shared_place d z h)).
  by rewrite Hcpu.
Qed.

(** Torch goes along: a new wrapper comes back. *)
Lemma feed_wrapper_run `{Torch} v self h tr enabled x d z td tz p g :
  h !! x = Some (wrap v d z) →
  tensor_at h d = Some td →
  tensor_at h z = Some tz →
  let dev := TensorFeeder._device self in
  let flag := TensorFeeder._requires_grad self in
  resolve dev = Some p →
  flag_set (t_autograd td) flag = inr g →
  constructible v p = true →
  let w := wrapper h d td tz dev p enabled g in
  TensorFeeder._feed self x (State h tr enabled) =
    (Ok w,
     State (<[w := wrap v (data' h d td tz dev p enabled g) (sizes' h z tz dev)]>
              (heap3 h d td tz dev p enabled g))
           (tr ++ [EvTo z dev; EvRequiresGrad_ d flag; EvTo d dev; EvNew w])
           enabled).
Proof.
  intros Hx Hd Hz dev flag Hp Hg Hc w. unfold TensorFeeder._feed.
  unfold mbind, M_bind at 1. unfold deref. simpl. rewrite Hx.
  destruct v; simpl.
  - refine (eq_trans (relocate_run h d z td tz dev p enabled g Hd Hz Hp
                        (λ x0 xs, PaddedTensor x0 xs) flag tr Hg) _).
    unfold PaddedTensor, alloc, emit. run. unfold w, wrapper.
    by rewrite <- (app_assoc tr).
  - refine (eq_trans (relocate_run h d z td tz dev p enabled g Hd Hz Hp
                        (λ x0 xs, PackedSequence x0 xs) flag tr Hg) _).
    unfold PackedSequence, tensor_method, alloc, emit. run.
    rewrite (sizes'_tensor h d z td tz dev p enabled g Hd Hz). simpl.
    rewrite place_descriptor_out by (exact Hp || by apply (shared_place d z h)).
    simpl in Hc. rewrite Hc. simpl. unfold w, wrapper.
    by rewrite <- (app_assoc tr).
Qed.

Lemma feed_without_parent `{Torch} self x :
  TensorFeeder._parent_feeder self = None →
  TensorFeeder.feed self x = TensorFeeder._feed self x.
Proof. intros Hp. unfold TensorFeeder.feed. by rewrite Hp. Qed.

Lemma wrapper_parts `{Torch} v h w d z :
  h !! w = Some (wrap v d z) →
  class_of h w = Some v ∧ data_of h w = tensor_at h d ∧ sizes_of h w = tensor_at h z
  ∧ parts_of h w = Some (d, z).
Proof.
  intros Hw. unfold class_of, data_of, sizes_of, parts_of. rewrite Hw.
  by destruct v.
Qed.

(** What comes back when torch goes along, and what the store is then. *)
Lemma feed_wrapper_post `{Torch} v self s x d z td tz p g :
  heap s !! x = Some (wrap v d z) →
  tensor_at (heap s) d = Some td →
  tensor_at (heap s) z = Some tz →
  let dev := TensorFeeder._device self in
  let flag := TensorFeeder._requires_grad self in
  resolve dev = Some p →
  flag_set (t_autograd td) flag = inr g →
  constructible v p = true →
  ∃ w d' z' s',
    TensorFeeder._feed self x s = (Ok w, s') ∧
    trace s' = trace s ++ [EvTo z dev; EvRequiresGrad_ d flag; EvTo d dev; EvNew w] ∧
    grad_enabled s' = grad_enabled s ∧
    heap s !! w = None ∧
    heap s' !! w = Some (wrap v d' z') ∧
    tensor_at (heap s') d'
      = Some (relocated (grad_enabled s) p dev (flagged td g)) ∧
    tensor_at (heap s') z'
      = Some (descriptor_out (grad_enabled s) p dev (bool_decide (d = z))
                (flagged td g) tz) ∧
    heap s' !! d = Some (OTensor (flagged td g)) ∧
    (∀ l, is_Some (heap s !! l) → l ≠ d → heap s' !! l = heap s !! l) ∧
    d' = data' (heap s) d td tz dev p (grad_enabled s) g ∧
    z' = sizes' (heap s) z tz dev.
Proof.
  destruct s as [h tr enabled]. simpl. intros Hx Hd Hz Hp Hg Hc.
  set (dev := TensorFeeder._device self) in *.
  set (flag := TensorFeeder._requires_grad self) in *.
  set (w := wrapper h d td tz dev p enabled g).
  assert (h !! w = None) as Hw by by apply wrapper_new.
  assert (∀ l, is_Some (heap3 h d td tz dev p enabled g !! l) → l ≠ w) as Hfresh.
  { intros l Hl. by apply fresh_loc_ne. }
  assert (∀ l t, tensor_at (heap3 h d td tz dev p enabled g) l = Some t →
            tensor_at (<[w := wrap v (data' h d td tz dev p enabled g)
                                    (sizes' h z tz dev)]>
                         (heap3 h d td tz dev p enabled g)) l = Some t) as Hkeep.
  { intros l t Hl. unfold tensor_at in *. rewrite lookup_insert_ne; [done|].
    apply not_eq_sym, Hfresh. destruct (heap3 _ _ _ _ _ _ _ _ !! l); [eauto|done]. }
  eexists w, _, _, _. split; [by apply feed_wrapper_run|]. simpl.
  split; [done|]. split; [done|]. split; [done|].
  split; [by rewrite lookup_insert_eq|].
  split; [by apply Hkeep, data'_tensor|].
  split; [by apply Hkeep, sizes'_tensor|].
  split.
  { rewrite lookup_insert_ne; [by apply heap3_data|].
    intros E. change (w = d) in E. apply tensor_at_Some in Hd. congruence. }
  split; [|done].
  intros l Hl Hne. rewrite lookup_insert_ne; [by apply heap3_old|].
  intros E. change (w = l) in E. destruct Hl as [o Hl]. congruence.
Qed.

(** ** The claims on [_feed] *)

(** C1: on a plain [Tensor] the code does not return a tensor on the
    configured device with the configured flag.  Line 34 calls the attribute
    [x.requires_grad], a [bool], where the two other branches call the
    method [requires_grad_]; the call raises [TypeError] before anything is
    moved, and the store is left as it was. *)
Theorem feed_Tensor_raises `{Torch} self s x tx :
  heap s !! x = Some (OTensor tx) →
  TensorFeeder._feed self x s
    = (Raise (TypeError "'bool' object is not callable"), s).
Proof.
  intros Hx. unfold TensorFeeder._feed, deref, call_bool, raise. run.
  by rewrite Hx.
Qed.

Lemma feed_Tensor_raises_witness :
  TensorFeeder._feed to_cuda0 1%positive tensor_store
    = (Raise (TypeError "'bool' object is not callable"), tensor_store).
Proof.
  apply (feed_Tensor_raises to_cuda0 tensor_store 1%positive float_data).
  reflexivity.
Defined.








(** C4: an object that is neither a [Tensor], nor a [PaddedTensor], nor a
    [PackedSequence] makes [_feed] raise a [ValueError] whose message shows
    the class of the object.  Nothing is returned, and the state is the one
    the call started from: no object has changed and no [to] has been
    called.  So does [feed] when no parent feeder is configured. *)
Theorem feed_other_raises `{Torch} self s x type_repr :
  heap s !! x = Some (OOther type_repr) →
  TensorFeeder._feed self x s
    = (Raise (ValueError ("Type " +:+ type_repr +:+ " is not supported")), s)
  ∧ (TensorFeeder._parent_feeder self = None →
     TensorFeeder.feed self x s
       = (Raise (ValueError ("Type " +:+ type_repr +:+ " is not supported")), s)).
Proof.
  intros Hx.
  assert (TensorFeeder._feed self x s
    = (Raise (ValueError ("Type " +:+ type_repr +:+ " is not supported")), s)) as E.
  { unfold TensorFeeder._feed, deref, raise. run. by rewrite Hx. }
  split; [exact E|].
  intros Hp. by rewrite feed_without_parent.
Qed.

Lemma feed_other_raises_witness :
  TensorFeeder._feed to_cuda0 2%positive tensor_store
    = (Raise (ValueError "Type <class 'list'> is not supported"), tensor_store)
  ∧ TensorFeeder.feed to_cuda0 2%positive tensor_store
    = (Raise (ValueError "Type <class 'list'> is not supported"), tensor_store).
Proof.
  destruct (feed_other_raises to_cuda0 tensor_store 2%positive "<class 'list'>"
              eq_refl) as [Hfeed Hcall].
  split; [exact Hfeed | exact (Hcall eq_refl)].
Defined.

(** C5, amended: on a [PaddedTensor] or a [PackedSequence] whose parts are
    tensors, a call changes at most one object that existed before it, the
    data tensor of the input: [requires_grad_] sets its flag in place when
    torch makes something of the device and accepts the flag, and it is as
    it was otherwise.  Every other object, the input wrapper and a
    descriptor that is another tensor among them, is as it was, whether the
    call returns or raises. *)
Theorem feed_wrapper_frame `{Torch} v self s x d z td tz l :
  heap s !! x = Some (wrap v d z) →
  tensor_at (heap s) d = Some td →
  tensor_at (heap s) z = Some tz →
  is_Some (heap s !! l) →
  heap (TensorFeeder._feed self x s).2 !! l =
    if decide (l = d) then Some (OTensor (data_after self td))
    else heap s !! l.
Proof.
  intros Hx Hd Hz Hl. destruct s as [h tr enabled]. simpl in *.
  assert (Hd' := Hd). apply tensor_at_Some in Hd'.
  unfold data_after.
  destruct (resolve (TensorFeeder._device self)) as [p|] eqn:Hp.
  2:{ rewrite (feed_wrapper_bad_device v self h tr enabled x d z tz) by done.
      simpl. case_decide; by subst. }
  destruct (flag_set (t_autograd td) (TensorFeeder._requires_grad self))
    as [why|g] eqn:Hg.
  { rewrite (feed_wrapper_refused v self h tr enabled x d z td tz p why) by done.
    simpl. rewrite heap1_old by done. case_decide; by subst. }
  assert (∀ w, h !! w = None → w ≠ l) as Hne.
  { intros w Hw ->. rewrite Hw in Hl. by destruct Hl. }
  assert (heap3 h d td tz (TensorFeeder._device self) p enabled g !! l
            = if decide (l = d) then Some (OTensor (flagged td g)) else h !! l) as H3.
  { case_decide as E; [subst; by apply heap3_data|by apply heap3_old]. }
  destruct (constructible v p) eqn:Hc.
  - rewrite (feed_wrapper_run v self h tr enabled x d z td tz p g) by done.
    simpl. rewrite lookup_insert_ne; [done|]. by apply Hne, wrapper_new.
  - destruct v; [done|]. simpl in Hc.
    by rewrite (feed_packed_off_cpu self h tr enabled x d z td tz p g) by done.
Qed.

Lemma feed_wrapper_frame_witness :
  heap (TensorFeeder._feed to_cpu0 3%positive padded_store).2 !! 2%positive
    = Some (OTensor int_sizes).
Proof.
  apply (feed_wrapper_frame Padded to_cpu0 padded_store 3%positive 1%positive
           2%positive float_data int_sizes 2%positive); try reflexivity.
  exists (OTensor int_sizes). reflexivity.
Defined.

(** C5 as the specification words it fails: the data tensor of the input
    did not track gradients before the call and does after it. *)
Lemma padded_store_changed :
  ¬ store_unchanged on_cpu 3%positive padded_store.
Proof.
  intros Hsame. specialize (Hsame 1%positive). vm_compute in Hsame.
  assert (is_Some (Some (OTensor float_data))) as Hs by eauto.
  specialize (Hsame Hs). discriminate Hsame.
Qed.

(** C8, amended: on a [PaddedTensor] and on a [PackedSequence] whose parts
    are tensors, when torch makes something of the device and accepts the
    flag on the data, and the device is a CPU device in the case of a
    [PackedSequence], the calls come in this order: [to] on the descriptor,
    then [requires_grad_] on the data, then [to] on the data, then the
    constructor.  The flag of the data of the input is set, in place; the
    data returned are those data with the flag set, or a copy of them; the
    descriptor returned is the descriptor of the input, or a copy made
    before the flag was set.  The object returned did not exist before the
    call, is of the class of the input, and wraps the two tensors [to]
    handed back, both on the configured device. *)
Theorem feed_wrapper_steps `{Torch} v self s x d z td tz p g :
  heap s !! x = Some (wrap v d z) →
  tensor_at (heap s) d = Some td →
  tensor_at (heap s) z = Some tz →
  let dev := TensorFeeder._device self in
  let flag := TensorFeeder._requires_grad self in
  resolve dev = Some p →
  flag_set (t_autograd td) flag = inr g →
  constructible v p = true →
  ∃ w s',
    TensorFeeder._feed self x s = (Ok w, s') ∧
    trace s' = trace s ++ [EvTo z dev; EvRequiresGrad_ d flag; EvTo d dev; EvNew w] ∧
    heap s !! w = None ∧
    heap s' !! w = Some (wrap v (data' (heap s) d td tz dev p (grad_enabled s) g)
                                (sizes' (heap s) z tz dev)) ∧
    tensor_at (heap s') d = Some (flagged td g) ∧
    t_requires_grad (flagged td g) = flag ∧
    data_of (heap s') w = Some (relocated (grad_enabled s) p dev (flagged td g)) ∧
    sizes_of (heap s') w
      = Some (descriptor_out (grad_enabled s) p dev (bool_decide (d = z))
                (flagged td g) tz) ∧
    t_place <$> data_of (heap s') w = Some p ∧
    t_place <$> sizes_of (heap s') w = Some p.
Proof.
  intros Hx Hd Hz dev flag Hp Hg Hc.
  destruct (feed_wrapper_post v self s x d z td tz p g Hx Hd Hz Hp Hg Hc)
    as (w & d' & z' & s' & Hrun & Htr & _ & Hnew & Hw & Hd' & Hz' & Hdata & _ & -> & ->).
  destruct (wrapper_parts _ _ _ _ _ Hw) as (_ & Hdo & Hso & _).
  exists w, s'. rewrite Hdo, Hso, Hd', Hz'. simpl.
  rewrite place_relocated by done.
  rewrite place_descriptor_out by (done || by apply (shared_place d z (heap s))).
  repeat split; try done.
  - by apply tensor_at_Some.
  - by apply (flag_set_requires_grad (t_autograd td)).
Qed.

Lemma feed_wrapper_steps_witness :
  ∃ w s',
    TensorFeeder._feed to_cpu0 3%positive packed_store = (Ok w, s') ∧
    trace s' = [] ++ [EvTo 2%positive cpu0; EvRequiresGrad_ 1%positive true;
                       EvTo 1%positive cpu0; EvNew w] ∧
    heap packed_store !! w = None ∧
    heap s' !! w = Some (OPackedSequence 5%positive 4%positive) ∧
    tensor_at (heap s') 1%positive = Some tracked_data ∧
    t_requires_grad tracked_data = true ∧
    data_of (heap s') w = Some (Tensor [1; 2; 3]%Z at_cpu Computed) ∧
    sizes_of (heap s') w = Some int_sizes ∧
    t_place <$> data_of (heap s') w = Some at_cpu ∧
    t_place <$> sizes_of (heap s') w = Some at_cpu.
Proof.
  apply (feed_wrapper_steps Packed to_cpu0 packed_store 3%positive 1%positive
           2%positive float_data int_sizes at_cpu (Leaf true)); reflexivity.
Defined.

(** C8 as the specification words it fails on a [PaddedTensor] whose data
    are integers, for a feeder built with the flag on: torch refuses the
    flag, and no wrapper comes back. *)
Lemma int_padded_not_returned :
  ¬ returns_wrapper Padded on_cpu 3%positive int_padded_store.
Proof. intros (w & s' & Hrun & _). vm_compute in Hrun. discriminate Hrun. Qed.

(** ** Chaining *)

Section quiet.
Context `{Torch}.

Lemma upstream_events_app (tr1 tr2 : list event) :
  upstream_events (tr1 ++ tr2) = upstream_events tr1 ++ upstream_events tr2.
Proof. apply omap_app. Qed.

Lemma quiet_ret {A} (a : A) : quiet (mret a).
Proof. intros s. exists []. by rewrite app_nil_r. Qed.

Lemma quiet_raise {A} e : quiet (@raise _ A e).
Proof. intros s. exists []. by rewrite app_nil_r. Qed.

Lemma quiet_bind {A B} (m : M A) (k : A → M B) :
  quiet m → (∀ a, quiet (k a)) → quiet (m ≫= k).
Proof.
  intros Hm Hk s. destruct (Hm s) as (evs & Hevs & Hq).
  unfold mbind, M_bind. destruct (m s) as [[a|e] s1]; simpl in *.
  - destruct (Hk a s1) as (evs' & Hevs' & Hq'). exists (evs ++ evs').
    rewrite Hevs', Hevs, upstream_events_app, Hq, Hq', app_assoc. done.
  - by exists evs.
Qed.

Lemma quiet_emit e :
  upstream_events [e] = [] → quiet (emit e).
Proof. intros He s. by exists [e]. Qed.

Lemma quiet_alloc o : quiet (alloc o).
Proof. intros s. exists []. by rewrite app_nil_r. Qed.

Lemma quiet_store x o : quiet (store x o).
Proof. intros s. exists []. by rewrite app_nil_r. Qed.

Lemma quiet_is_grad_enabled : quiet is_grad_enabled.
Proof. intros s. exists []. by rewrite app_nil_r. Qed.

Lemma quiet_deref x : quiet (deref x).
Proof.
  intros s. exists []. unfold deref.
  destruct (heap s !! x); by rewrite app_nil_r.
Qed.

Lemma quiet_tensor_method x attr : quiet (tensor_method x attr).
Proof.
  intros s. exists []. unfold tensor_method.
  destruct (tensor_at (heap s) x); by rewrite app_nil_r.
Qed.

End quiet.

Create HintDb quiet.
#[local] Hint Resolve quiet_ret quiet_raise quiet_alloc quiet_store quiet_deref
  quiet_tensor_method quiet_is_grad_enabled : quiet.

Ltac quiet_steps :=
  repeat first
    [ solve [auto with quiet]
    | apply quiet_bind; [|intros ?]
    | apply quiet_emit; reflexivity
    | match goal with
      | |- quiet (match ?c with _ => _ end) => destruct c
      | |- quiet (if ?c then _ else _) => destruct c
      end ].

Lemma quiet_to `{Torch} x dev : quiet (to x dev).
Proof. unfold to. quiet_steps. Qed.

Lemma quiet_requires_grad_ `{Torch} x flag : quiet (requires_grad_ x flag).
Proof. unfold requires_grad_. quiet_steps. Qed.

Lemma quiet_PaddedTensor `{Torch} d z : quiet (PaddedTensor d z).
Proof. unfold PaddedTensor. quiet_steps. Qed.

Lemma quiet_PackedSequence `{Torch} d z : quiet (PackedSequence d z).
Proof. unfold PackedSequence. quiet_steps. Qed.

#[local] Hint Resolve quiet_to quiet_requires_grad_ quiet_PaddedTensor
  quiet_PackedSequence : quiet.

(** [_feed] itself calls no parent feeder. *)
Lemma quiet__feed `{Torch} self x : quiet (TensorFeeder._feed self x).
Proof.
  unfold TensorFeeder._feed. apply quiet_bind; [auto with quiet|].
  intros [tx|d z|d z|ty]; unfold call_bool; quiet_steps.
Qed.

(** C6: a feeder built with a parent feeder [u] calls [u] on the input and
    on the store the call started from.  When [u] raises, so does the
    feeder, in the store [u] left.  When [u] hands [y] back, the feeder
    does on [y], in the store [u] left, what the same feeder built without
    a parent does there.  The call to [u] comes before every call [_feed]
    makes, and there is no other. *)
Theorem feed_chain `{Torch} dev flag u x s :
  let chained := TensorFeeder.__init__ dev flag (Some u) in
  let plain := TensorFeeder.__init__ dev flag None in
  let called := State (u x (heap s)).2 (trace s ++ [EvUpstream x]) (grad_enabled s) in
  TensorFeeder.feed chained x s
    = match (u x (heap s)).1 with
      | Ok y => TensorFeeder.feed plain y called
      | Raise e => (Raise e, called)
      end
  ∧ ∃ rest,
      trace (TensorFeeder.feed chained x s).2 = trace s ++ EvUpstream x :: rest
      ∧ upstream_events rest = [].
Proof.
  intros chained plain called.
  assert (TensorFeeder.feed chained x s
    = match (u x (heap s)).1 with
      | Ok y => TensorFeeder.feed plain y called
      | Raise e => (Raise e, called)
      end) as E.
  { unfold TensorFeeder.feed, chained, plain, called, call_upstream, emit,
      apply_callable. run.
    by destruct (u x (heap s)) as [[y|e] h1]. }
  split; [exact E|]. rewrite E.
  destruct (u x (heap s)) as [[y|e] h1]; simpl.
  - destruct (quiet__feed plain y called) as (evs & Hevs & Hq).
    exists evs. unfold TensorFeeder.feed at 1. simpl.
    rewrite Hevs. simpl. by rewrite <- app_assoc.
  - exists []. done.
Qed.

(** C9: the class under its old name is the class: the same feeders, built
    and run the same way. *)
Theorem VariableFeeder_is_TensorFeeder `{Torch} dev flag parent x s :
  VariableFeeder.t = TensorFeeder.t
  ∧ VariableFeeder.__init__ dev flag parent = TensorFeeder.__init__ dev flag parent
  ∧ VariableFeeder._feed (VariableFeeder.__init__ dev flag parent) x s
      = TensorFeeder._feed (TensorFeeder.__init__ dev flag parent) x s
  ∧ VariableFeeder.feed (VariableFeeder.__init__ dev flag parent) x s
      = TensorFeeder.feed (TensorFeeder.__init__ dev flag parent) x s.
Proof. repeat split. Qed.

(** ** Feeding twice *)

(** What [_feed] returned for a wrapper, fed again, when torch finds on the
    device what it has put there: the same two tensors in a wrapper of the
    same class, and nothing that existed has changed. *)
Lemma feed_wrapper_twice `{Torch} v self s x d z td tz p :
  heap s !! x = Some (wrap v d z) →
  tensor_at (heap s) d = Some td →
  tensor_at (heap s) z = Some tz →
  resolve (TensorFeeder._device self) = Some p →
  already_on p (TensorFeeder._device self) = true →
  accepts (t_autograd td) (TensorFeeder._requires_grad self) = true →
  constructible v p = true →
  grad_enabled s = true →
  ∃ w1 s1 w2 s2 d' z',
    TensorFeeder._feed self x s = (Ok w1, s1) ∧
    TensorFeeder._feed self w1 s1 = (Ok w2, s2) ∧
    heap s1 !! w1 = Some (wrap v d' z') ∧
    heap s2 !! w2 = Some (wrap v d' z') ∧
    heap s1 !! w2 = None ∧
    ∀ l, is_Some (heap s1 !! l) → heap s2 !! l = heap s1 !! l.
Proof.
  intros Hx Hd Hz Hp Hon Hacc Hc Hge.
  apply accepts_flag_set in Hacc as [g Hg].
  destruct (feed_wrapper_post v self s x d z td tz p g Hx Hd Hz Hp Hg Hc)
    as (w1 & d1 & z1 & s1 & Hrun1 & _ & Hge1 & _ & Hw1 & Hd1 & Hz1 & _).
  rewrite Hge in Hd1, Hz1.
  set (dev := TensorFeeder._device self) in *.
  set (t1 := relocated true p dev (flagged td g)) in *.
  set (t2 := descriptor_out true p dev (bool_decide (d = z)) (flagged td g) tz) in *.
  assert (t_place t1 = p) as Hp1 by by apply place_relocated.
  assert (t_place t2 = p) as Hp2.
  { apply place_descriptor_out; [done|]. by apply (shared_place d z (heap s)). }
  assert (flag_set (t_autograd t1) (TensorFeeder._requires_grad self)
            = inr (t_autograd t1)) as Hg1.
  { unfold t1, relocated. simpl. destruct (already_on (t_place td) dev); simpl.
    - by apply (flag_set_again (t_autograd td)).
    - by apply (flag_set_copied (t_autograd td)). }
  destruct (feed_wrapper_post v self s1 w1 d1 z1 t1 t2 p _ Hw1 Hd1 Hz1 Hp Hg1 Hc)
    as (w2 & d2 & z2 & s2 & Hrun2 & _ & _ & Hnew & Hw2 & _ & _ & Hdata & Hold & -> & ->).
  exists w1, s1, w2, s2, d1, z1. repeat split; try done.
  - rewrite Hw2. unfold data', sizes', moved. simpl. fold dev.
    by rewrite Hp1, Hp2, Hon.
  - intros l Hl. destruct (decide (l = d1)) as [->|Hne]; [|by apply Hold].
    rewrite Hdata. apply tensor_at_Some in Hd1. rewrite Hd1.
    unfold flagged. by destruct t1.
Qed.

(** C7: a plain [Tensor] that is on the configured device with the
    configured flag is not handed back as it is: [feed] raises the
    [TypeError] of line 34. *)
Theorem feed_settled_Tensor_raises :
  heap settled_store !! 1%positive = Some (OTensor tracked_data)
  ∧ already_on (t_place tracked_data) (TensorFeeder._device on_cpu) = true
  ∧ t_requires_grad tracked_data = TensorFeeder._requires_grad on_cpu
  ∧ TensorFeeder.feed on_cpu 1%positive settled_store
    = (Raise (TypeError "'bool' object is not callable"), settled_store).
Proof. repeat split. Qed.

(** ** Equal inputs, equal results *)








(** ** Sharing and copying *)

(** X1: when torch goes along, each part of the wrapper [_feed] returns is
    the very object the input held when torch found that object on the
    configured device already, and an object that did not exist before the
    call otherwise; the two parts returned are one object exactly when the
    two parts of the input were one object found on the device. *)
Theorem feed_wrapper_sharing `{Torch} v self s x d z td tz p :
  heap s !! x = Some (wrap v d z) →
  tensor_at (heap s) d = Some td →
  tensor_at (heap s) z = Some tz →
  let dev := TensorFeeder._device self in
  resolve dev = Some p →
  accepts (t_autograd td) (TensorFeeder._requires_grad self) = true →
  constructible v p = true →
  ∃ w s' d' z',
    TensorFeeder._feed self x s = (Ok w, s') ∧
    parts_of (heap s') w = Some (d', z') ∧
    (if already_on (t_place td) dev then d' = d else heap s !! d' = None) ∧
    (if already_on (t_place tz) dev then z' = z else heap s !! z' = None) ∧
    (d' = z' ↔ d = z ∧ already_on (t_place tz) dev = true).
Proof.
  intros Hx Hd Hz dev Hp Hacc Hc.
  apply accepts_flag_set in Hacc as [g Hg].
  destruct (feed_wrapper_post v self s x d z td tz p g Hx Hd Hz Hp Hg Hc)
    as (w & d' & z' & s' & Hrun & _ & _ & _ & Hw & _ & _ & _ & _ & -> & ->).
  destruct (wrapper_parts _ _ _ _ _ Hw) as (_ & _ & _ & Hparts).
  eexists w, s', _, _. split; [exact Hrun|]. split; [exact Hparts|].
  split; [|split].
  - unfold data', moved. simpl. fold dev.
    destruct (already_on (t_place td) dev); [done|].
    apply fresh_loc_old. intros l Hl. by apply heap2_old.
  - unfold sizes', moved. fold dev.
    destruct (already_on (t_place tz) dev); [done|]. apply fresh_loc_None.
  - by apply data'_is_sizes'.
Qed.

Lemma feed_wrapper_sharing_witness :
  ∃ w s' d' z',
    TensorFeeder._feed on_cpu 3%positive padded_store = (Ok w, s') ∧
    parts_of (heap s') w = Some (d', z') ∧
    d' = 1%positive ∧ z' = 2%positive ∧
    (d' = z' ↔ 1%positive = 2%positive ∧ true = true).
Proof.
  apply (feed_wrapper_sharing Padded on_cpu padded_store 3%positive 1%positive
           2%positive float_data int_sizes at_cpu); reflexivity.
Defined.

(** X2: on a wrapper whose two parts torch finds on the configured device
    and whose data has the configured flag, [_feed] copies nothing and
    changes nothing: the store after the call is the store before it with
    one more object, a wrapper of the same class around the same two
    tensors.  The batch sizes of a [PackedSequence] are on the CPU. *)
Theorem feed_wrapper_settled `{Torch} v self s x d z td tz :
  heap s !! x = Some (wrap v d z) →
  tensor_at (heap s) d = Some td →
  tensor_at (heap s) z = Some tz →
  already_on (t_place td) (TensorFeeder._device self) = true →
  already_on (t_place tz) (TensorFeeder._device self) = true →
  t_requires_grad td = TensorFeeder._requires_grad self →
  constructible v (t_place tz) = true →
  ∃ w s',
    TensorFeeder._feed self x s = (Ok w, s') ∧
    heap s !! w = None ∧
    heap s' = <[w := wrap v d z]> (heap s).
Proof.
  intros Hx Hd Hz Hdd Hdz Hflag Hc. destruct s as [h tr enabled]. simpl in *.
  assert (resolve (TensorFeeder._device self) = Some (t_place tz)) as Hp
    by by apply already_on_resolve.
  assert (flag_set (t_autograd td) (TensorFeeder._requires_grad self)
            = inr (t_autograd td)) as Hg.
  { rewrite <- Hflag. unfold t_requires_grad. by destruct (t_autograd td) as [|[]|]. }
  eexists _, _. split; [by apply feed_wrapper_run|]. simpl.
  assert (flagged td (t_autograd td) = td) as Hsame by by destruct td.
  assert (heap3 h d td tz (TensorFeeder._device self) (t_place tz) enabled
            (t_autograd td) = h) as Hh.
  { unfold heap3, heap2, heap1, moved_heap. rewrite Hsame, Hdd, Hdz.
    apply insert_id. by apply tensor_at_Some. }
  split; [by apply wrapper_new|].
  unfold wrapper. rewrite Hh. f_equal.
  unfold data', sizes', moved. by rewrite Hsame, Hdd, Hdz.
Qed.

Lemma feed_wrapper_settled_witness :
  ∃ w s',
    TensorFeeder._feed on_cpu 3%positive settled_padded_store = (Ok w, s') ∧
    heap settled_padded_store !! w = None ∧
    heap s' = <[w := OPaddedTensor 1 2]> (heap settled_padded_store).
Proof.
  apply (feed_wrapper_settled Padded on_cpu settled_padded_store 3%positive
           1%positive 2%positive tracked_data int_sizes); reflexivity.
Defined.

(** X3: when torch goes along, the call adds one object for the wrapper
    and one for each part that torch did not find on the configured device,
    and removes none. *)
Theorem feed_wrapper_growth `{Torch} v self s x d z td tz p :
  heap s !! x = Some (wrap v d z) →
  tensor_at (heap s) d = Some td →
  tensor_at (heap s) z = Some tz →
  resolve (TensorFeeder._device self) = Some p →
  accepts (t_autograd td) (TensorFeeder._requires_grad self) = true →
  constructible v p = true →
  size (heap (TensorFeeder._feed self x s).2)
    = size (heap s) + copies td tz (TensorFeeder._device self) + 1.
Proof.
  intros Hx Hd Hz Hp Hacc Hc. destruct s as [h tr enabled]. simpl in *.
  apply accepts_flag_set in Hacc as [g Hg].
  rewrite (feed_wrapper_run v self h tr enabled x d z td tz p g) by done. simpl.
  set (dev := TensorFeeder._device self) in *.
  rewrite map_size_insert_None by apply fresh_loc_None.
  assert (size (heap1 h tz dev p enabled)
            = size h + (if already_on (t_place tz) dev then 0 else 1)) as H1.
  { unfold heap1, moved_heap. destruct (already_on (t_place tz) dev); [lia|].
    rewrite map_size_insert_None by apply fresh_loc_None. lia. }
  assert (size (heap2 h d td tz dev p enabled g) = size (heap1 h tz dev p enabled))
    as H2.
  { unfold heap2. pose proof (heap1_data h d td tz dev p enabled Hd) as Hd1.
    apply tensor_at_Some in Hd1. apply map_size_insert_Some. eauto. }
  assert (size (heap3 h d td tz dev p enabled g)
            = size (heap2 h d td tz dev p enabled g)
              + (if already_on (t_place td) dev then 0 else 1)) as H3.
  { unfold heap3, moved_heap. simpl.
    destruct (already_on (t_place td) dev); [lia|].
    rewrite map_size_insert_None by apply fresh_loc_None. lia. }
  unfold copies. fold dev. lia.
Qed.

Lemma feed_wrapper_growth_witness :
  size (heap (TensorFeeder._feed to_cpu0 3%positive padded_store).2)
    = size (heap padded_store) + 2 + 1.
Proof.
  apply (feed_wrapper_growth Padded to_cpu0 padded_store 3%positive 1%positive
           2%positive float_data int_sizes at_cpu); reflexivity.
Defined.

(** ** Objects that exist stay *)

Section keeps.
Context `{Torch}.

Lemma kept_refl o : kept o o.
Proof. by destruct o. Qed.

Lemma kept_trans o1 o2 o3 : kept o1 o2 → kept o2 o3 → kept o1 o3.
Proof.
  destruct o1, o2, o3; simpl; try congruence; try done.
  intros [? ?] [? ?]. split; congruence.
Qed.

Lemma keeps_same_heap {A} (m : M A) :
  (∀ s, heap (m s).2 = heap s) → keeps_objects m.
Proof. intros Hm s l o Hl. exists o. rewrite Hm. split; [done|apply kept_refl]. Qed.

Lemma keeps_bind {A B} (m : M A) (k : A → M B) :
  keeps_objects m → (∀ a, keeps_objects (k a)) → keeps_objects (m ≫= k).
Proof.
  intros Hm Hk s l o Hl. destruct (Hm s l o Hl) as (o1 & Hl1 & Hk1).
  unfold mbind, M_bind. destruct (m s) as [[a|e] s1]; simpl in *.
  - destruct (Hk a s1 l o1 Hl1) as (o2 & Hl2 & Hk2).
    exists o2. split; [done|]. by apply kept_trans with o1.
  - by exists o1.
Qed.

Lemma keeps_ret {A} (a : A) : keeps_objects (mret a).
Proof. by apply keeps_same_heap. Qed.

Lemma keeps_raise {A} e : keeps_objects (@raise _ A e).
Proof. by apply keeps_same_heap. Qed.

Lemma keeps_emit e : keeps_objects (emit e).
Proof. by apply keeps_same_heap. Qed.

Lemma keeps_is_grad_enabled : keeps_objects is_grad_enabled.
Proof. by apply keeps_same_heap. Qed.

Lemma keeps_deref x : keeps_objects (deref x).
Proof. apply keeps_same_heap. intros s. unfold deref. by destruct (heap s !! x). Qed.

Lemma keeps_tensor_method x attr : keeps_objects (tensor_method x attr).
Proof.
  apply keeps_same_heap. intros s. unfold tensor_method.
  by destruct (tensor_at (heap s) x).
Qed.

Lemma keeps_alloc o : keeps_objects (alloc o).
Proof.
  intros s l o1 Hl. exists o1. split; [|apply kept_refl].
  unfold alloc. simpl. rewrite lookup_insert_ne; [done|].
  apply not_eq_sym, fresh_loc_ne. eauto.
Qed.

(** The one call that changes an object: the standing of a tensor, nothing
    else of it. *)
Lemma keeps_requires_grad_ x flag : keeps_objects (requires_grad_ x flag).
Proof.
  intros s l o Hl. unfold requires_grad_, emit, tensor_method, store, raise. run.
  destruct (tensor_at (heap s) x) as [t|] eqn:Ht; simpl;
    [|exists o; split; [done|apply kept_refl]].
  destruct (flag_set (t_autograd t) flag) as [why|g]; simpl;
    [exists o; split; [done|apply kept_refl]|].
  destruct (decide (x = l)) as [->|Hne].
  - rewrite lookup_insert_eq. eexists. split; [done|].
    apply tensor_at_Some in Ht. rewrite Ht in Hl. by simplify_eq.
  - rewrite lookup_insert_ne by done. exists o. split; [done|apply kept_refl].
Qed.

End keeps.

Create HintDb keeps.
#[local] Hint Resolve keeps_ret keeps_raise keeps_emit keeps_deref
  keeps_tensor_method keeps_alloc keeps_is_grad_enabled keeps_requires_grad_ : keeps.

Ltac keeps_steps :=
  repeat first
    [ solve [auto with keeps]
    | apply keeps_bind; [|intros ?]
    | match goal with
      | |- keeps_objects (match ?c with _ => _ end) => destruct c
      | |- keeps_objects (if ?c then _ else _) => destruct c
      end ].

Lemma keeps_to `{Torch} x dev : keeps_objects (to x dev).
Proof. unfold to. keeps_steps. Qed.

Lemma keeps_PaddedTensor `{Torch} d z : keeps_objects (PaddedTensor d z).
Proof. unfold PaddedTensor. keeps_steps. Qed.

Lemma keeps_PackedSequence `{Torch} d z : keeps_objects (PackedSequence d z).
Proof. unfold PackedSequence. keeps_steps. Qed.

#[local] Hint Resolve keeps_to keeps_PaddedTensor keeps_PackedSequence : keeps.

(** X4: whatever it is given and however it ends, [_feed] removes no
    object, changes the class of none, and changes of a tensor that exists
    neither the payload nor the place: its standing with autograd is all it
    may touch. *)
Theorem feed_keeps_objects `{Torch} self x s l o :
  heap s !! l = Some o →
  ∃ o', heap (TensorFeeder._feed self x s).2 !! l = Some o' ∧ kept o o'.
Proof.
  revert s l o. change (keeps_objects (TensorFeeder._feed self x)).
  unfold TensorFeeder._feed. apply keeps_bind; [auto with keeps|].
  intros [tx|d z|d z|ty]; unfold call_bool; keeps_steps.
Qed.

Lemma feed_keeps_objects_witness :
  ∃ o', heap (TensorFeeder._feed to_cuda0 3%positive packed_store).2 !! 1%positive
          = Some o' ∧ kept (OTensor float_data) o'.
Proof.
  apply (feed_keeps_objects to_cuda0 3%positive packed_store 1%positive
           (OTensor float_data)).
  reflexivity.
Defined.

(** X5: what [_feed] returned for a wrapper, fed to the same feeder again,
    when torch finds on the device what it has put there: a new wrapper of
    the same class around the same two tensor objects comes back, and the
    second call changes no object that existed. *)
Theorem feed_wrapper_again `{Torch} v self s x d z td tz p :
  heap s !! x = Some (wrap v d z) →
  tensor_at (heap s) d = Some td →
  tensor_at (heap s) z = Some tz →
  resolve (TensorFeeder._device self) = Some p →
  already_on p (TensorFeeder._device self) = true →
  accepts (t_autograd td) (TensorFeeder._requires_grad self) = true →
  constructible v p = true →
  grad_enabled s = true →
  ∃ w1 s1 w2 s2 d' z',
    TensorFeeder._feed self x s = (Ok w1, s1) ∧
    TensorFeeder._feed self w1 s1 = (Ok w2, s2) ∧
    heap s1 !! w1 = Some (wrap v d' z') ∧
    heap s2 !! w2 = Some (wrap v d' z') ∧
    heap s1 !! w2 = None ∧
    ∀ l, is_Some (heap s1 !! l) → heap s2 !! l = heap s1 !! l.
Proof. apply feed_wrapper_twice. Qed.

Lemma feed_wrapper_again_witness :
  ∃ w1 s1 w2 s2 d' z',
    TensorFeeder._feed on_cpu 3%positive padded_store = (Ok w1, s1) ∧
    TensorFeeder._feed on_cpu w1 s1 = (Ok w2, s2) ∧
    heap s1 !! w1 = Some (OPaddedTensor d' z') ∧
    heap s2 !! w2 = Some (OPaddedTensor d' z') ∧
    heap s1 !! w2 = None ∧
    ∀ l, is_Some (heap s1 !! l) → heap s2 !! l = heap s1 !! l.
Proof.
  apply (feed_wrapper_again Padded on_cpu padded_store 3%positive 1%positive
           2%positive float_data int_sizes at_cpu); reflexivity.
Defined.



(** ** When torch refuses *)

(** X7: when torch makes nothing of the configured device, [_feed] on a
    wrapper raises at the first [to]: no object has changed, none has been
    made, and [requires_grad_] has not been called. *)
Theorem feed_wrapper_no_device `{Torch} v self s x d z td tz :
  heap s !! x = Some (wrap v d z) →
  tensor_at (heap s) d = Some td →
  tensor_at (heap s) z = Some tz →
  resolve (TensorFeeder._device self) = None →
  ∃ s',
    TensorFeeder._feed self x s = (Raise (LibraryError BadDevice), s') ∧
    heap s' = heap s ∧
    trace s' = trace s ++ [EvTo z (TensorFeeder._device self)].
Proof.
  intros Hx Hd Hz Hp. destruct s as [h tr enabled]. simpl in *.
  eexists. split; [by apply (feed_wrapper_bad_device v self h tr enabled x d z tz)|].
  done.
Qed.

Lemma feed_wrapper_no_device_witness :
  ∃ s',
    TensorFeeder._feed to_gpu0 3%positive padded_store
      = (Raise (LibraryError BadDevice), s') ∧
    heap s' = heap padded_store ∧
    trace s' = [] ++ [EvTo 2%positive gpu0].
Proof.
  apply (feed_wrapper_no_device Padded to_gpu0 padded_store 3%positive
           1%positive 2%positive float_data int_sizes); reflexivity.
Defined.

(** X8: when torch refuses the flag on the data, [_feed] on a wrapper
    raises at [requires_grad_]: no wrapper comes back and no object that
    existed has changed, the data of the input among them, but the
    descriptor has been through [to] already, and a copy of it has been
    made when torch did not find it on the device. *)
Theorem feed_wrapper_flag_refused `{Torch} v self s x d z td tz p why :
  heap s !! x = Some (wrap v d z) →
  tensor_at (heap s) d = Some td →
  tensor_at (heap s) z = Some tz →
  let dev := TensorFeeder._device self in
  let flag := TensorFeeder._requires_grad self in
  resolve dev = Some p →
  flag_set (t_autograd td) flag = inl why →
  ∃ s',
    TensorFeeder._feed self x s = (Raise (LibraryError why), s') ∧
    trace s' = trace s ++ [EvTo z dev; EvRequiresGrad_ d flag] ∧
    (∀ l, is_Some (heap s !! l) → heap s' !! l = heap s !! l) ∧
    size (heap s') = size (heap s) + (if already_on (t_place tz) dev then 0 else 1).
Proof.
  intros Hx Hd Hz dev flag Hp Hg. destruct s as [h tr enabled]. simpl in *.
  eexists. split;
    [by apply (feed_wrapper_refused v self h tr enabled x d z td tz p why)|].
  simpl. split; [done|]. split; [intros l Hl; by apply heap1_old|].
  unfold heap1, moved_heap. fold dev. destruct (already_on (t_place tz) dev); [lia|].
  rewrite map_size_insert_None by apply fresh_loc_None. lia.
Qed.

Lemma feed_wrapper_flag_refused_witness :
  ∃ s',
    TensorFeeder._feed to_cpu0 3%positive int_padded_store
      = (Raise (LibraryError NotDifferentiable), s') ∧
    trace s' = [] ++ [EvTo 2%positive cpu0; EvRequiresGrad_ 1%positive true] ∧
    (∀ l, is_Some (heap int_padded_store !! l) →
          heap s' !! l = heap int_padded_store !! l) ∧
    size (heap s') = size (heap int_padded_store) + 1.
Proof.
  apply (feed_wrapper_flag_refused Padded to_cpu0 int_padded_store 3%positive
           1%positive 2%positive int_data int_sizes at_cpu NotDifferentiable);
    reflexivity.
Defined.

(** X9: for a configured device that is no CPU device, [_feed] on a
    [PackedSequence] never returns: when torch has moved both parts and set
    the flag, its constructor refuses batch sizes off the CPU.  The call
    raises, and the data of the input have had their flag set in place all
    the same. *)
Theorem feed_PackedSequence_off_cpu `{Torch} self s x d z td tz p g :
  heap s !! x = Some (OPackedSequence d z) →
  tensor_at (heap s) d = Some td →
  tensor_at (heap s) z = Some tz →
  let dev := TensorFeeder._device self in
  let flag := TensorFeeder._requires_grad self in
  resolve dev = Some p →
  flag_set (t_autograd td) flag = inr g →
  is_cpu p = false →
  ∃ s',
    TensorFeeder._feed self x s = (Raise (LibraryError BatchSizesOffCpu), s') ∧
    trace s' = trace s ++ [EvTo z dev; EvRequiresGrad_ d flag; EvTo d dev] ∧
    tensor_at (heap s') d = Some (flagged td g) ∧
    t_requires_grad (flagged td g) = flag.
Proof.
  intros Hx Hd Hz dev flag Hp Hg Hcpu. destruct s as [h tr enabled]. simpl in *.
  eexists. split;
    [by apply (feed_packed_off_cpu self h tr enabled x d z td tz p g)|].
  simpl. split; [done|]. split.
  - apply tensor_at_Some. by apply heap3_data.
  - by apply (flag_set_requires_grad (t_autograd td)).
Qed.

Lemma feed_PackedSequence_off_cpu_witness :
  ∃ s',
    TensorFeeder._feed to_cuda0 3%positive packed_store
      = (Raise (LibraryError BatchSizesOffCpu), s') ∧
    trace s' = [] ++ [EvTo 2%positive cuda0; EvRequiresGrad_ 1%positive true;
                       EvTo 1%positive cuda0] ∧
    tensor_at (heap s') 1%positive = Some tracked_data ∧
    t_requires_grad tracked_data = true.
Proof.
  apply (feed_PackedSequence_off_cpu to_cuda0 packed_store 3%positive 1%positive
           2%positive float_data int_sizes at_cuda0 (Leaf true)); reflexivity.
Defined.
